(** * satellite_packetizer.c: AX.25 framing, FX.25 FEC wrapping, KISS output

    A shallow embedding of [satellite_packetizer.c] and the properties of its
    three-stage pipeline.

    Conventions of the embedding.
    - C integers ([int], [size_t], [uint8_t], [uint16_t]) are [Z]; every
      conversion to a narrower unsigned type is written out as a reduction
      modulo [2^8] or [2^16].
    - A [uint8_t] array is a [list Z]; a pointer into an array is the array
      together with an offset.  Reads and writes go through [load], [store]
      and [memcpy], which return [None] where the C program would leave the
      array (undefined behaviour), so a result [Some _] also says that no
      access was out of bounds.
    - A function that writes through a pointer argument returns the updated
      array next to its C return value.
    - The output [FILE*] is the list of bytes written so far; the input
      [FILE*] is the list of bytes not yet read.
    - Diagnostics printed to [stderr]/[stdout] are not part of the model. *)

From stdpp Require Import base decidable option numbers list list_numbers strings.
From Stdlib Require Import ZArith Lia.
From Equations Require Import Equations.

Local Open Scope Z_scope.

(** ** Machine integers and arrays *)

Definition uint8_t (x : Z) : Z := x mod 256.
Definition uint16_t (x : Z) : Z := x mod 65536.

(** Values a [uint8_t] object can hold. *)
Definition is_byte (x : Z) : Prop := 0 ≤ x < 256.

Global Instance is_byte_dec x : Decision (is_byte x).
Proof. unfold is_byte. apply _. Defined.

(** [b[i]] as an rvalue. *)
Definition load (b : list Z) (i : Z) : option Z :=
  if decide (0 ≤ i) then b !! Z.to_nat i else None.

(** [b[i] = v] for a [uint8_t] array: the value is converted to [uint8_t]. *)
Definition store (b : list Z) (i : Z) (v : Z) : option (list Z) :=
  if decide (0 ≤ i < Z.of_nat (length b))
  then Some (<[Z.to_nat i := uint8_t v]> b)
  else None.

(** [memcpy(dest + off, src, n)]: both ranges have to lie inside their
    arrays.  A negative [int] passed for [n] becomes a huge [size_t] in C and
    can never be in range. *)
Definition memcpy (dest : list Z) (off : Z) (src : list Z) (n : Z) : option (list Z) :=
  if decide (0 ≤ off ∧ 0 ≤ n ∧ n ≤ Z.of_nat (length src) ∧ off + n ≤ Z.of_nat (length dest))
  then Some (take (Z.to_nat off) dest ++ take (Z.to_nat n) src ++ drop (Z.to_nat (off + n)) dest)
  else None.

(** [for (int i = 0; i < n; i++) body], threading the state the body
    updates.  The loop runs [0] times for [n ≤ 0]. *)
Fixpoint for_each {A S : Type} (body : A → S → option S) (l : list A) (s : S) : option S :=
  match l with
  | [] => Some s
  | i :: l => s' ← body i s; for_each body l s'
  end.

Definition for_loop {S : Type} (n : Z) (body : Z → S → option S) (s : S) : option S :=
  for_each body (seqZ 0 n) s.

(** Case analysis on a value that keeps the equation with it. *)
Definition inspect {A : Type} (x : A) : {y : A | x = y} := exist _ x eq_refl.

(** ** Constants *)

Definition AX25_CONTROL : Z := 0x03.
Definition PID_NOL3 : Z := 0xF0.

Definition FX25_K : Z := 223.
Definition FX25_N : Z := 255.
Definition CORR_TAG : list Z := [0xCC; 0x8F; 0x8A; 0xE4; 0x85; 0xE2; 0x98; 0x01].

Definition KISS_FEND : Z := 0xC0.
Definition KISS_FESC : Z := 0xDB.
Definition KISS_TFEND : Z := 0xDC.
Definition KISS_TFESC : Z := 0xDD.
Definition KISS_CMD_DATA : Z := 0x00.

Definition MAX_PAYLOAD : Z := 150.

(** ** Data structures *)

Record ax25_address_t := { call : string; ssid : Z }.

(** ** Low-level utility functions *)

(** [(uint8_t)call[i]]; at [i = strlen(call)] this is the terminating NUL. *)
Definition char_at (s : string) (i : Z) : Z :=
  match String.get (Z.to_nat i) s with
  | Some c => Z.of_N (Ascii.N_of_ascii c)
  | None => 0
  end.

(** [encode_address(call, ssid, out + base, last_addr)]. *)
Definition encode_address (call : string) (ssid : Z) (out : list Z) (base : Z)
    (last_addr : Z) : option (list Z) :=
  let call_len := Z.of_nat (String.length call) in
  out ← for_loop 6 (λ i out,
           store out (base + i)
             (if decide (i < call_len) then Z.shiftl (char_at call i) 1
              else Z.shiftl (char_at " " 0) 1)) out;
  store out (base + 6)
    (Z.lor (Z.lor (Z.shiftl ssid 1) 0x60 (* 0b01100000 *)) (if decide (last_addr ≠ 0) then 1 else 0)).

(** One turn of the inner loop of [calculate_crc]. *)
Definition crc_shift (crc : Z) : Z :=
  if decide (Z.land crc 0x8000 ≠ 0)
  then uint16_t (Z.lxor (Z.shiftl crc 1) 0x1021)
  else uint16_t (Z.shiftl crc 1).

(** The register of [calculate_crc] when its outer loop ends. *)
Definition crc_register (data : list Z) (length : Z) : option Z :=
  for_loop length (λ i crc,
    d ← load data i;
    let crc := uint16_t (Z.lxor crc (Z.shiftl d 8)) in
    for_loop 8 (λ _ crc, Some (crc_shift crc)) crc) 0xFFFF.

Definition calculate_crc (data : list Z) (length : Z) : option Z :=
  crc ← crc_register data length;
  Some (uint16_t (Z.lxor crc 0xFFFF)).

(** ** AX.25 module *)

Definition ax25_generate_ui_frame (frame_buffer : list Z) (dest src : ax25_address_t)
    (payload : list Z) (payload_len : Z) : option (Z * list Z) :=
  let pos := 0 in
  frame_buffer ← encode_address (call dest) (ssid dest) frame_buffer pos 0;
  let pos := pos + 7 in
  frame_buffer ← encode_address (call src) (ssid src) frame_buffer pos 1;
  let pos := pos + 7 in
  frame_buffer ← store frame_buffer pos AX25_CONTROL;
  let pos := pos + 1 in
  frame_buffer ← store frame_buffer pos PID_NOL3;
  let pos := pos + 1 in
  frame_buffer ← memcpy frame_buffer pos payload payload_len;
  let pos := pos + payload_len in
  fcs ← calculate_crc frame_buffer pos;
  frame_buffer ← store frame_buffer pos (Z.land fcs 0xFF);
  let pos := pos + 1 in
  frame_buffer ← store frame_buffer pos (Z.land (Z.shiftr fcs 8) 0xFF);
  let pos := pos + 1 in
  Some (pos, frame_buffer).

(** ** KISS module *)

(** [fputc(c, stream)] on a sink that accepts every byte: [c] is written as
    an [unsigned char]. *)
Definition fputc (c : Z) (stream : list Z) : list Z := stream ++ [uint8_t c].

Definition write_kiss_frame (stream : list Z) (frame : list Z) (length : Z) : option (list Z) :=
  let stream := fputc KISS_FEND stream in
  let stream := fputc KISS_CMD_DATA stream in
  stream ← for_loop length (λ i stream,
              b ← load frame i;
              if decide (b = KISS_FEND) then
                let stream := fputc KISS_FESC stream in
                Some (fputc KISS_TFEND stream)
              else if decide (b = KISS_FESC) then
                let stream := fputc KISS_FESC stream in
                Some (fputc KISS_TFESC stream)
              else Some (fputc b stream)) stream;
  Some (fputc KISS_FEND stream).

(** ** FX.25 module *)

Section Packetizer.

(** libfec is an external library.  [rs] is the type of the handle that
    [init_rs_char] returns, and [rs_parity h data i] is the [i]-th of the 32
    parity symbols that [encode_rs_char] computes with handle [h] for the
    223 data symbols [data]. *)
Variable rs : Type.
Variable rs_parity : rs → list Z → Z → Z.

Record fx25_encoder_t := { rs_handle : rs }.

(** [encode_rs_char(h, block, block + parity_off)]: reads the data symbols in
    front of the parity area and writes the parity symbols. *)
Definition encode_rs_char (h : rs) (block : list Z) (parity_off : Z) : option (list Z) :=
  let data := take (Z.to_nat parity_off) block in
  for_loop (FX25_N - FX25_K) (λ i block,
    store block (parity_off + i) (rs_parity h data i)) block.

Definition fx25_encode_frame (encoder : fx25_encoder_t) (ax25_frame : list Z)
    (ax25_len : Z) (fx25_frame_out : list Z) : option (Z * list Z) :=
  if decide (ax25_len > FX25_K) then Some (0, fx25_frame_out)
  else
    fx25_frame_out ← memcpy fx25_frame_out 0 CORR_TAG 8;
    let rs_block := replicate (Z.to_nat FX25_N) 0 in
    rs_block ← memcpy rs_block 0 ax25_frame ax25_len;
    rs_block ← encode_rs_char (rs_handle encoder) rs_block FX25_K;
    fx25_frame_out ← memcpy fx25_frame_out 8 rs_block FX25_N;
    Some (8 + FX25_N, fx25_frame_out).

(** ** Main processing loop *)

(** [fread(ptr, 1, nmemb, stream)] on a regular file without read errors:
    the bytes read, the updated array and the rest of the file. *)
Definition fread (ptr : list Z) (nmemb : Z) (stream : list Z) : option (Z * list Z * list Z) :=
  let n := Z.min nmemb (Z.of_nat (length stream)) in
  ptr ← memcpy ptr 0 stream n;
  Some (n, ptr, drop (Z.to_nat n) stream).

(** The local variables of [main] that the loop updates, and the output
    file. *)
Record loop_state := {
  output_file : list Z;
  payload_buffer : list Z;
  ax25_buffer : list Z;
  fx25_buffer : list Z;
  packet_count : Z
}.

(** The body of the [while] loop, after [fread] has filled
    [payload_buffer] with [bytes_read] bytes.  Each [continue] leaves the
    body with the counter and the output as they are. *)
Definition loop_body (encoder : fx25_encoder_t) (dest_addr src_addr : ax25_address_t)
    (bytes_read : Z) (st : loop_state) : option loop_state :=
  '(ax25_len, ax25_buffer') ←
    ax25_generate_ui_frame (ax25_buffer st) dest_addr src_addr (payload_buffer st) bytes_read;
  let st := {| output_file := output_file st; payload_buffer := payload_buffer st;
               ax25_buffer := ax25_buffer'; fx25_buffer := fx25_buffer st;
               packet_count := packet_count st |} in
  if decide (ax25_len = 0) then Some st
  else
    '(fx25_len, fx25_buffer') ←
      fx25_encode_frame encoder (ax25_buffer st) ax25_len (fx25_buffer st);
    let st := {| output_file := output_file st; payload_buffer := payload_buffer st;
                 ax25_buffer := ax25_buffer st; fx25_buffer := fx25_buffer';
                 packet_count := packet_count st |} in
    if decide (fx25_len = 0) then Some st
    else
      output_file' ← write_kiss_frame (output_file st) (fx25_buffer st) fx25_len;
      Some {| output_file := output_file'; payload_buffer := payload_buffer st;
              ax25_buffer := ax25_buffer st; fx25_buffer := fx25_buffer st;
              packet_count := packet_count st + 1 |}.

(** [while ((bytes_read = fread(...)) > 0) { ... }].  Every turn that enters
    the body has consumed at least one byte of the input, which is why the
    loop ends. *)
Equations? main_loop (encoder : fx25_encoder_t) (dest_addr src_addr : ax25_address_t)
    (input_file : list Z) (st : loop_state) : option loop_state
    by wf (length input_file) lt :=
main_loop encoder dest_addr src_addr input_file st
    with inspect (fread (payload_buffer st) MAX_PAYLOAD input_file) := {
  | exist _ None _ := None
  | exist _ (Some (bytes_read, payload_buffer', rest)) Hread
      with decide (bytes_read > 0) := {
    | right _ := Some {| output_file := output_file st; payload_buffer := payload_buffer';
                         ax25_buffer := ax25_buffer st; fx25_buffer := fx25_buffer st;
                         packet_count := packet_count st |}
    | left _
        with loop_body encoder dest_addr src_addr bytes_read
               {| output_file := output_file st; payload_buffer := payload_buffer';
                  ax25_buffer := ax25_buffer st; fx25_buffer := fx25_buffer st;
                  packet_count := packet_count st |} := {
      | None := None
      | Some st' := main_loop encoder dest_addr src_addr rest st' } } }.
Proof.
  unfold fread in Hread.
  destruct (memcpy _ _ _ _); simplify_eq/=.
  rewrite length_drop. lia.
Qed.

(** [main] from the point where its arguments are parsed, the encoder is
    initialised and both files are open: the output file starts empty, the
    three arrays are uninitialised (any contents of the declared sizes) and
    the counter starts at [0].  The result is the output file and the
    packet count that [main] reports. *)
Definition main (encoder : fx25_encoder_t) (dest_addr src_addr : ax25_address_t)
    (input_file : list Z) (payload_buffer ax25_buffer fx25_buffer : list Z)
    : option (list Z * Z) :=
  st ← main_loop encoder dest_addr src_addr input_file
         {| output_file := []; payload_buffer := payload_buffer;
            ax25_buffer := ax25_buffer; fx25_buffer := fx25_buffer;
            packet_count := 0 |};
  Some (output_file st, packet_count st).

(** ** Wire formats

    The byte layouts of the specification (section 6, External interfaces),
    written as functions on lists.  The theorems below relate them to the
    array code above. *)

(** AX.25 address field: six shifted, space-padded callsign characters and
    the SSID octet. *)
Definition wire_address (a : ax25_address_t) (is_last : bool) : list Z :=
  ((λ i, uint8_t (Z.shiftl (if decide (i < Z.of_nat (String.length (call a)))
                            then char_at (call a) i else 32) 1)) <$> seqZ 0 6)
  ++ [uint8_t (Z.lor (Z.lor (Z.shiftl (ssid a) 1) 0x60) (if is_last then 1 else 0))].

(** The checksum register after one more byte, and the checksum of a byte
    sequence. *)
Definition crc_update (crc d : Z) : Z :=
  Nat.iter 8 crc_shift (uint16_t (Z.lxor crc (Z.shiftl d 8))).

Definition crc16 (data : list Z) : Z :=
  uint16_t (Z.lxor (foldl crc_update 0xFFFF data) 0xFFFF).

(** AX.25 UI frame:
    [dest_addr(7) | src_addr(7) | 0x03 | 0xF0 | payload | fcs_lo | fcs_hi]. *)
Definition wire_ui_header (dest src : ax25_address_t) : list Z :=
  wire_address dest false ++ wire_address src true ++ [0x03; 0xF0].

Definition wire_ui_frame (dest src : ax25_address_t) (payload : list Z) : list Z :=
  let body := wire_ui_header dest src ++ payload in
  let fcs := crc16 body in
  body ++ [uint8_t (Z.land fcs 0xFF); uint8_t (Z.land (Z.shiftr fcs 8) 0xFF)].

(** FX.25 block: [tag(8) | data(223, zero-padded frame) | parity(32)]. *)
Definition wire_rs_data (frame : list Z) : list Z :=
  frame ++ replicate (223 - length frame)%nat 0.

Definition wire_rs_parity (h : rs) (frame : list Z) : list Z :=
  (λ i, uint8_t (rs_parity h (wire_rs_data frame) i)) <$> seqZ 0 32.

Definition wire_fx25_block (h : rs) (frame : list Z) : list Z :=
  CORR_TAG ++ wire_rs_data frame ++ wire_rs_parity h frame.

(** KISS frame: [0xC0 | 0x00 | escaped(block) | 0xC0] with the
    substitutions [0xC0 -> 0xDB 0xDC] and [0xDB -> 0xDB 0xDD]. *)
Definition kiss_escape_byte (b : Z) : list Z :=
  if decide (b = 0xC0) then [0xDB; 0xDC]
  else if decide (b = 0xDB) then [0xDB; 0xDD]
  else [b].

Definition kiss_escape (l : list Z) : list Z := l ≫= kiss_escape_byte.

Definition wire_kiss_frame (l : list Z) : list Z :=
  [0xC0; 0x00] ++ kiss_escape l ++ [0xC0].

(** The receiving side of the escape substitution.  The program has no
    decoder; this one is the inverse that the round-trip law asks for. *)
Fixpoint kiss_unescape (l : list Z) : list Z :=
  match l with
  | [] => []
  | b :: l' =>
      if decide (b = 0xDB) then
        match l' with
        | c :: l'' =>
            if decide (c = 0xDC) then 0xC0 :: kiss_unescape l''
            else if decide (c = 0xDD) then 0xDB :: kiss_unescape l''
            else b :: kiss_unescape l'
        | [] => [b]
        end
      else b :: kiss_unescape l'
  end.

(** One packet of the output file: the KISS frame of the FX.25 block of the
    UI frame of a chunk of input. *)
Definition wire_packet (encoder : fx25_encoder_t) (dest src : ax25_address_t)
    (chunk : list Z) : list Z :=
  wire_kiss_frame (wire_fx25_block (rs_handle encoder) (wire_ui_frame dest src chunk)).

(** The first [k] chunks of [n] bytes of an input. *)
Fixpoint chunks (n : nat) (k : nat) (l : list Z) : list (list Z) :=
  match k with
  | O => []
  | S k => take n l :: chunks n k (drop n l)
  end.

(** The bytes of a C string literal, without the terminating NUL. *)
Definition bytes_of_string (s : string) : list Z :=
  (λ c, Z.of_N (Ascii.N_of_ascii c)) <$> String.list_ascii_of_string s.

(** The error result of [ax25_generate_ui_frame] and [fx25_encode_frame],
    documented as "the length of the frame, or 0 on error": the caller in
    [main] tests the returned length against [0]. *)
Definition is_error (r : option (Z * list Z)) : Prop :=
  ∃ out, r = Some (0, out).

(** * Properties *)

(** ** Arrays and loops *)

Lemma uint8_t_is_byte x : is_byte (uint8_t x).
Proof. unfold is_byte, uint8_t. apply Z.mod_pos_bound. lia. Qed.

Lemma uint8_t_id x : is_byte x → uint8_t x = x.
Proof. unfold is_byte, uint8_t. intros. by apply Z.mod_small. Qed.

Lemma bind_Some_l {A B} (f : A → option B) x : Some x ≫= f = f x.
Proof. done. Qed.

(** Move past a step of the program whose result is known. *)
Ltac step := rewrite bind_Some_l; cbv beta.

Lemma for_each_app {A S} (body : A → S → option S) l1 l2 s :
  for_each body (l1 ++ l2) s = for_each body l1 s ≫= for_each body l2.
Proof.
  revert s. induction l1 as [|i l1 IH]; intros s; simpl; [done|].
  destruct (body i s); simpl; [apply IH|done].
Qed.

Lemma for_loop_nonpos {S} n (body : Z → S → option S) s :
  n ≤ 0 → for_loop n body s = Some s.
Proof. intros. unfold for_loop. by rewrite seqZ_nil. Qed.

Lemma for_loop_succ {S} (n : nat) (body : Z → S → option S) s :
  for_loop (Z.of_nat (Datatypes.S n)) body s
  = for_loop (Z.of_nat n) body s ≫= body (Z.of_nat n).
Proof.
  unfold for_loop. rewrite seqZ_S, for_each_app. simpl.
  destruct (for_each body _ s); simpl; [|done].
  by destruct (body _ _).
Qed.

(** A loop that reads [data[i]] on turn [i] visits the first [n] elements
    in order, provided they exist. *)
Lemma for_loop_load {S} (data : list Z) n (f : Z → S → option S) s :
  0 ≤ n ≤ Z.of_nat (length data) →
  for_loop n (λ i s, d ← load data i; f d s) s
  = for_each f (take (Z.to_nat n) data) s.
Proof.
  intros [Hn Hlen]. rewrite <- (Z2Nat.id n Hn) in Hlen |- *.
  rewrite Nat2Z.id. generalize dependent (Z.to_nat n). clear n Hn.
  induction n as [|n IH]; intros Hlen; [done|].
  rewrite for_loop_succ, IH by lia.
  destruct (lookup_lt_is_Some_2 data n) as [d Hd]; [lia|].
  rewrite (take_S_r _ _ _ Hd), for_each_app. simpl.
  destruct (for_each f _ s); simpl; [|done].
  unfold load. rewrite decide_True by lia. rewrite Nat2Z.id, Hd. simpl.
  by destruct (f d _).
Qed.

Lemma for_each_pure {A S} (g : S → A → S) l s :
  for_each (λ a s, Some (g s a)) l s = Some (foldl g s l).
Proof. revert s. induction l as [|a l IH]; intros s; simpl; [done|apply IH]. Qed.

(** Writing at the end of the part of an array written so far. *)
Lemma store_next (w r : list Z) i v :
  i = Z.of_nat (length w) → (0 < length r)%nat →
  store (w ++ r) i v = Some ((w ++ [uint8_t v]) ++ drop 1 r).
Proof.
  intros -> Hr. unfold store. rewrite length_app, decide_True by lia.
  rewrite Nat2Z.id. destruct r as [|x r]; simpl in *; [lia|].
  rewrite insert_app_r_alt, Nat.sub_diag by lia. simpl.
  by rewrite drop_0, <- app_assoc.
Qed.

Lemma memcpy_next (w r src : list Z) off n :
  off = Z.of_nat (length w) → 0 ≤ n ≤ Z.of_nat (length src) →
  n ≤ Z.of_nat (length r) →
  memcpy (w ++ r) off src n
  = Some ((w ++ take (Z.to_nat n) src) ++ drop (Z.to_nat n) r).
Proof.
  intros -> Hn Hr. unfold memcpy. rewrite length_app, decide_True by lia.
  rewrite Nat2Z.id, take_app_length, Z2Nat.inj_add, Nat2Z.id by lia.
  by rewrite drop_app_add, <- app_assoc.
Qed.

Lemma for_loop_store (w r : list Z) (f : Z → Z) n off :
  off = Z.of_nat (length w) → 0 ≤ n ≤ Z.of_nat (length r) →
  for_loop n (λ i b, store b (off + i) (f i)) (w ++ r)
  = Some ((w ++ ((λ i, uint8_t (f i)) <$> seqZ 0 n)) ++ drop (Z.to_nat n) r).
Proof.
  intros -> [Hn Hlen]. rewrite <- (Z2Nat.id n Hn) in Hlen |- *.
  rewrite Nat2Z.id. generalize dependent (Z.to_nat n). clear n Hn.
  induction n as [|n IH]; intros Hlen.
  - rewrite for_loop_nonpos by done. simpl. by rewrite app_nil_r, drop_0.
  - rewrite for_loop_succ, IH by lia. simpl.
    rewrite store_next.
    + rewrite seqZ_S, fmap_app, drop_drop. simpl.
      by rewrite (app_assoc w), Nat.add_1_r.
    + rewrite length_app, length_fmap, length_seqZ. lia.
    + rewrite length_drop. lia.
Qed.

Lemma for_each_ext {A S} (f g : A → S → option S) l s :
  (∀ a s, f a s = g a s) → for_each f l s = for_each g l s.
Proof.
  intros Hfg. revert s. induction l as [|a l IH]; intros s; simpl; [done|].
  rewrite Hfg. destruct (g a s); simpl; [apply IH|done].
Qed.

(** ** Address field *)

Lemma length_wire_address a is_last : length (wire_address a is_last) = 7%nat.
Proof. reflexivity. Qed.

Lemma Forall_is_byte_wire_address a is_last : Forall is_byte (wire_address a is_last).
Proof.
  unfold wire_address. apply Forall_app. split.
  - apply Forall_fmap, Forall_true. intros i. apply uint8_t_is_byte.
  - apply Forall_singleton, uint8_t_is_byte.
Qed.

(** [encode_address] writes the address field at [out + base] and leaves
    the rest of the array alone. *)
Lemma encode_address_next (a : ax25_address_t) (w r : list Z) base last_addr :
  base = Z.of_nat (length w) → (7 ≤ length r)%nat →
  encode_address (call a) (ssid a) (w ++ r) base last_addr
  = Some ((w ++ wire_address a (bool_decide (last_addr ≠ 0))) ++ drop 7 r).
Proof.
  intros Hbase Hr. unfold encode_address.
  rewrite (for_loop_store w r _ 6 base) by lia. step.
  rewrite store_next.
  - rewrite drop_drop. unfold wire_address. f_equal.
    rewrite <- !app_assoc. do 2 f_equal.
    + apply list_fmap_ext. intros _ i _. by case_decide.
    + by case_bool_decide; case_decide.
  - rewrite length_app, length_fmap, length_seqZ. lia.
  - rewrite length_drop. lia.
Qed.

(** ** Checksum *)

Lemma foldl_const_iter {A B} (f : A → A) (l : list B) x :
  foldl (λ s _, f s) x l = Nat.iter (length l) f x.
Proof.
  revert x. induction l as [|b l IH]; intros x; simpl; [done|].
  rewrite IH. clear IH. induction (length l) as [|n IH]; simpl; [done|].
  by rewrite IH.
Qed.

Lemma crc_register_spec (data : list Z) n :
  0 ≤ n ≤ Z.of_nat (length data) →
  crc_register data n = Some (foldl crc_update 0xFFFF (take (Z.to_nat n) data)).
Proof.
  intros Hn. unfold crc_register.
  rewrite (for_loop_load data n (λ d crc,
             for_loop 8 (λ _ crc, Some (crc_shift crc))
               (uint16_t (Z.lxor crc (Z.shiftl d 8))))) by done.
  rewrite <- for_each_pure. apply for_each_ext. intros d crc.
  unfold for_loop, crc_update.
  rewrite for_each_pure, foldl_const_iter, length_seqZ. reflexivity.
Qed.

Lemma calculate_crc_spec (data : list Z) n :
  0 ≤ n ≤ Z.of_nat (length data) →
  calculate_crc data n = Some (crc16 (take (Z.to_nat n) data)).
Proof. intros Hn. unfold calculate_crc. by rewrite crc_register_spec. Qed.

(** ** UI frame *)

Lemma length_wire_ui_header dest src : length (wire_ui_header dest src) = 16%nat.
Proof. reflexivity. Qed.

Lemma length_wire_ui_frame dest src payload :
  length (wire_ui_frame dest src payload) = (length payload + 18)%nat.
Proof.
  unfold wire_ui_frame. rewrite !length_app, length_wire_ui_header. simpl. lia.
Qed.

Lemma Forall_is_byte_wire_ui_frame dest src payload :
  Forall is_byte payload → Forall is_byte (wire_ui_frame dest src payload).
Proof.
  intros Hp. unfold wire_ui_frame, wire_ui_header.
  rewrite !Forall_app, !Forall_cons, Forall_nil.
  repeat split;
    first [apply Forall_is_byte_wire_address | assumption
          | apply uint8_t_is_byte | unfold is_byte; lia].
Qed.

(** Side conditions on array sizes. *)
Ltac len :=
  unfold CORR_TAG, FX25_N, FX25_K;
  rewrite ?length_app, ?length_drop, ?length_take, ?length_wire_address,
    ?length_wire_ui_header, ?length_fmap, ?length_seqZ, ?length_replicate;
  cbn [length]; lia.

(** [ax25_generate_ui_frame] builds the UI frame of the first [payload_len]
    bytes of [payload] at the start of [frame_buffer], returns its length
    and leaves the rest of the array alone.  There is no bound on
    [payload_len] other than the sizes of the two arrays. *)
Lemma ax25_generate_ui_frame_spec frame_buffer dest src payload payload_len :
  0 ≤ payload_len ≤ Z.of_nat (length payload) →
  payload_len + 18 ≤ Z.of_nat (length frame_buffer) →
  ax25_generate_ui_frame frame_buffer dest src payload payload_len
  = Some (payload_len + 18,
          wire_ui_frame dest src (take (Z.to_nat payload_len) payload)
          ++ drop (Z.to_nat (payload_len + 18)) frame_buffer).
Proof.
  intros Hn Hlen. unfold ax25_generate_ui_frame.
  rewrite (encode_address_next dest [] frame_buffer) by len.
  step.
  rewrite encode_address_next
    by len.
  step.
  rewrite store_next
    by len.
  step.
  rewrite store_next
    by len.
  step.
  rewrite memcpy_next
    by len.
  step. rewrite !drop_drop.
  set (body := wire_ui_header dest src ++ take (Z.to_nat payload_len) payload).
  assert (Hbody : length body = Z.to_nat (0 + 7 + 7 + 1 + 1 + payload_len)).
  { unfold body. rewrite length_app, length_wire_ui_header, length_take. lia. }
  match goal with |- context [calculate_crc (?b ++ ?r)] =>
    replace b with body
      by (unfold body, wire_ui_header; simpl; by rewrite <- ?app_assoc)
  end.
  rewrite calculate_crc_spec by len.
  rewrite <- Hbody, take_app_length. step.
  rewrite store_next by len. step.
  rewrite store_next by len.
  step. rewrite !drop_drop. do 2 f_equal; [lia|].
  unfold wire_ui_frame. fold body. clearbody body.
  rewrite <- !app_assoc. simpl. do 5 f_equal. lia.
Qed.

(** ** FX.25 block *)

Lemma length_wire_rs_data frame :
  (length frame ≤ 223)%nat → length (wire_rs_data frame) = 223%nat.
Proof. intros. unfold wire_rs_data. rewrite length_app, length_replicate. lia. Qed.

Lemma length_wire_rs_parity h frame : length (wire_rs_parity h frame) = 32%nat.
Proof. unfold wire_rs_parity. by rewrite length_fmap, length_seqZ. Qed.

Lemma length_wire_fx25_block h frame :
  (length frame ≤ 223)%nat → length (wire_fx25_block h frame) = 263%nat.
Proof.
  intros. unfold wire_fx25_block.
  rewrite !length_app, length_wire_rs_data, length_wire_rs_parity by done.
  reflexivity.
Qed.

Lemma Forall_is_byte_wire_fx25_block h frame :
  Forall is_byte frame → Forall is_byte (wire_fx25_block h frame).
Proof.
  intros Hf. unfold wire_fx25_block, wire_rs_data, wire_rs_parity.
  rewrite !Forall_app. repeat split.
  - unfold CORR_TAG. repeat (apply Forall_cons_2; [unfold is_byte; lia|]).
    apply Forall_nil_2.
  - done.
  - apply Forall_replicate. unfold is_byte. lia.
  - apply Forall_fmap, Forall_true. intros i. apply uint8_t_is_byte.
Qed.

Lemma encode_rs_char_next h (data par : list Z) :
  length data = 223%nat → (32 ≤ length par)%nat →
  encode_rs_char h (data ++ par) FX25_K
  = Some ((data ++ ((λ i, uint8_t (rs_parity h data i)) <$> seqZ 0 32))
          ++ drop 32 par).
Proof.
  intros Hdata Hpar. unfold encode_rs_char.
  change (Z.to_nat FX25_K) with 223%nat. rewrite <- Hdata, take_app_length.
  change (FX25_N - FX25_K) with 32.
  rewrite for_loop_store; [done| |]; unfold FX25_K; lia.
Qed.

(** [fx25_encode_frame] accepts every frame of at most 223 bytes, writes
    the 263 bytes of its FX.25 block at the start of [fx25_frame_out] and
    leaves the rest of the array alone. *)
Lemma fx25_encode_frame_spec encoder ax25_frame ax25_len fx25_frame_out :
  0 ≤ ax25_len ≤ 223 → ax25_len ≤ Z.of_nat (length ax25_frame) →
  263 ≤ Z.of_nat (length fx25_frame_out) →
  fx25_encode_frame encoder ax25_frame ax25_len fx25_frame_out
  = Some (263, wire_fx25_block (rs_handle encoder) (take (Z.to_nat ax25_len) ax25_frame)
               ++ drop 263 fx25_frame_out).
Proof.
  intros Hlen Hframe Hout. unfold fx25_encode_frame.
  rewrite decide_False by (unfold FX25_K; lia).
  rewrite (memcpy_next [] fx25_frame_out) by len. step.
  change (Z.to_nat FX25_N) with 255%nat.
  rewrite (memcpy_next [] (replicate 255 0)) by len. step.
  rewrite drop_replicate.
  replace (255 - Z.to_nat ax25_len)%nat
    with ((223 - Z.to_nat ax25_len) + 32)%nat by lia.
  rewrite replicate_add, !app_nil_l, app_assoc.
  set (frame := take (Z.to_nat ax25_len) ax25_frame).
  assert (Hf : length frame = Z.to_nat ax25_len) by (unfold frame; len).
  rewrite <- Hf. fold (wire_rs_data frame).
  rewrite encode_rs_char_next
    by (rewrite ?length_wire_rs_data, ?length_replicate; lia).
  step. fold (wire_rs_parity (rs_handle encoder) frame).
  rewrite drop_replicate, Nat.sub_diag, app_nil_r.
  change (take (Z.to_nat 8) CORR_TAG) with CORR_TAG.
  rewrite memcpy_next;
    [| done
     | rewrite length_app, length_wire_rs_data, length_wire_rs_parity; unfold FX25_N; lia
     | rewrite length_drop; unfold FX25_N; lia ].
  step. rewrite drop_drop.
  rewrite take_ge
    by (rewrite length_app, length_wire_rs_data, length_wire_rs_parity; unfold FX25_N; lia).
  unfold wire_fx25_block. by rewrite <- !app_assoc.
Qed.

(** ** KISS frame *)

Lemma kiss_escape_cons b l : kiss_escape (b :: l) = kiss_escape_byte b ++ kiss_escape l.
Proof. done. Qed.

Lemma kiss_escape_app l1 l2 : kiss_escape (l1 ++ l2) = kiss_escape l1 ++ kiss_escape l2.
Proof. apply bind_app. Qed.

(** [write_kiss_frame] appends the KISS frame of the first [length] bytes
    of [frame] to the stream. *)
Lemma write_kiss_frame_spec (stream frame : list Z) length :
  0 ≤ length ≤ Z.of_nat (Datatypes.length frame) →
  Forall is_byte (take (Z.to_nat length) frame) →
  write_kiss_frame stream frame length
  = Some (stream ++ wire_kiss_frame (take (Z.to_nat length) frame)).
Proof.
  intros Hlen Hbytes. unfold write_kiss_frame.
  rewrite for_loop_load by done.
  generalize dependent (take (Z.to_nat length) frame). clear frame Hlen.
  intros l Hbytes. unfold wire_kiss_frame.
  change (fputc KISS_CMD_DATA (fputc KISS_FEND stream)) with ((stream ++ [0xC0]) ++ [0x00]).
  rewrite <- (app_assoc stream [0xC0] [0x00]). simpl ([0xC0] ++ [0x00]).
  rewrite (app_assoc stream). generalize (stream ++ [0xC0; 0x00]). clear stream.
  induction Hbytes as [|b l Hb _ IH]; intros stream.
  - done.
  - cbn [for_each]. rewrite kiss_escape_cons. unfold kiss_escape_byte at 1.
    unfold KISS_FEND, KISS_FESC.
    repeat case_decide; step; rewrite IH; unfold fputc;
      rewrite <- ?app_assoc; try done.
    by rewrite (uint8_t_id b).
Qed.

(** ** Processing loop *)

Lemma fread_spec (ptr stream : list Z) nmemb :
  0 ≤ nmemb ≤ Z.of_nat (length ptr) →
  fread ptr nmemb stream
  = Some (Z.min nmemb (Z.of_nat (length stream)),
          take (Z.to_nat nmemb) stream
          ++ drop (Z.to_nat (Z.min nmemb (Z.of_nat (length stream)))) ptr,
          drop (Z.to_nat nmemb) stream).
Proof.
  intros Hn. unfold fread.
  rewrite (memcpy_next [] ptr) by (cbn [length]; lia). step.
  rewrite app_nil_l.
  destruct (decide (nmemb ≤ Z.of_nat (length stream))).
  - by rewrite Z.min_l.
  - rewrite Z.min_r, Nat2Z.id by lia.
    by rewrite (take_ge stream (Z.to_nat nmemb)), (drop_ge stream (Z.to_nat nmemb)),
         (take_ge stream (length stream)), (drop_ge stream (length stream)) by lia.
Qed.

(** One turn of the loop body on a chunk that fits: the packet of the chunk
    is appended to the output and the counter goes up by one. *)
Lemma loop_body_spec encoder dest_addr src_addr bytes_read st :
  0 ≤ bytes_read ≤ 205 →
  bytes_read ≤ Z.of_nat (length (payload_buffer st)) →
  bytes_read + 18 ≤ Z.of_nat (length (ax25_buffer st)) →
  263 ≤ Z.of_nat (length (fx25_buffer st)) →
  Forall is_byte (take (Z.to_nat bytes_read) (payload_buffer st)) →
  let chunk := take (Z.to_nat bytes_read) (payload_buffer st) in
  let frame := wire_ui_frame dest_addr src_addr chunk in
  loop_body encoder dest_addr src_addr bytes_read st
  = Some {| output_file := output_file st ++ wire_packet encoder dest_addr src_addr chunk;
            payload_buffer := payload_buffer st;
            ax25_buffer := frame ++ drop (Z.to_nat (bytes_read + 18)) (ax25_buffer st);
            fx25_buffer := wire_fx25_block (rs_handle encoder) frame
                           ++ drop 263 (fx25_buffer st);
            packet_count := packet_count st + 1 |}.
Proof.
  intros Hn Hpb Hax Hfx Hbytes chunk frame. unfold loop_body.
  rewrite ax25_generate_ui_frame_spec by lia. step. cbn [ax25_buffer fx25_buffer
    output_file payload_buffer packet_count].
  rewrite decide_False by lia.
  fold chunk. fold frame.
  assert (Hchunk : length chunk = Z.to_nat bytes_read) by (unfold chunk; len).
  assert (Hframe : length frame = Z.to_nat (bytes_read + 18)).
  { unfold frame. rewrite length_wire_ui_frame. lia. }
  rewrite fx25_encode_frame_spec by (rewrite ?length_app; lia). step.
  cbn [ax25_buffer fx25_buffer output_file payload_buffer packet_count].
  rewrite decide_False by lia.
  rewrite <- Hframe, take_app_length.
  assert (Hblock : length (wire_fx25_block (rs_handle encoder) frame) = Z.to_nat 263).
  { rewrite length_wire_fx25_block; lia. }
  rewrite write_kiss_frame_spec; rewrite <- ?Hblock, ?take_app_length.
  - done.
  - rewrite length_app. lia.
  - by apply Forall_is_byte_wire_fx25_block, Forall_is_byte_wire_ui_frame.
Qed.

Lemma main_loop_eq encoder dest_addr src_addr input_file st :
  main_loop encoder dest_addr src_addr input_file st
  = match fread (payload_buffer st) MAX_PAYLOAD input_file with
    | None => None
    | Some (bytes_read, payload_buffer', rest) =>
        let st := {| output_file := output_file st; payload_buffer := payload_buffer';
                     ax25_buffer := ax25_buffer st; fx25_buffer := fx25_buffer st;
                     packet_count := packet_count st |} in
        if decide (bytes_read > 0)
        then loop_body encoder dest_addr src_addr bytes_read st
             ≫= main_loop encoder dest_addr src_addr rest
        else Some st
    end.
Proof.
  funelim (main_loop encoder dest_addr src_addr input_file st);
    match goal with H : fread _ _ _ = _ |- _ => rewrite H end; try done.
  - cbv zeta. rewrite decide_False by done. done.
  - cbv zeta. rewrite decide_True by done.
    by match goal with H : loop_body _ _ _ _ _ = _ |- _ => rewrite H end.
  - cbv zeta. rewrite decide_True by done.
    by match goal with H : loop_body _ _ _ _ _ = _ |- _ => rewrite H end.
Qed.

(** At the end of the input [fread] returns [0] and the loop is left with
    the output and the counter as they are. *)
Lemma main_loop_eof encoder dest_addr src_addr st :
  (150 ≤ length (payload_buffer st))%nat →
  main_loop encoder dest_addr src_addr [] st = Some st.
Proof.
  intros Hpb. rewrite main_loop_eq, fread_spec by (unfold MAX_PAYLOAD; lia).
  cbv zeta. rewrite decide_False by (cbn [length]; lia).
  cbn [length Z.of_nat Z.min Z.compare Z.to_nat take app drop].
  by destruct st.
Qed.

(** The loop cuts the input into chunks of [MAX_PAYLOAD] bytes, the last
    one possibly shorter, and emits one packet per chunk: for an input that
    [k] chunks cover exactly, the output grows by the [k] packets in order
    and the counter by [k]. *)
Lemma main_loop_spec encoder dest_addr src_addr (k : nat) input_file st :
  Forall is_byte input_file →
  (length input_file ≤ 150 * k)%nat → (150 * k < length input_file + 150)%nat →
  length (payload_buffer st) = 150%nat →
  (168 ≤ length (ax25_buffer st))%nat →
  (263 ≤ length (fx25_buffer st))%nat →
  ∃ st', main_loop encoder dest_addr src_addr input_file st = Some st'
    ∧ output_file st'
      = output_file st
        ++ concat (wire_packet encoder dest_addr src_addr <$> chunks 150 k input_file)
    ∧ packet_count st' = packet_count st + Z.of_nat k.
Proof.
  revert input_file st.
  induction k as [|k IH]; intros input_file st Hbytes Hlo Hhi Hpb Hax Hfx;
    rewrite main_loop_eq, fread_spec by (unfold MAX_PAYLOAD; lia); cbv zeta.
  - rewrite decide_False by (unfold MAX_PAYLOAD; lia).
    eexists. split; [done|]. cbn. by rewrite app_nil_r, Z.add_0_r.
  - rewrite decide_True by (unfold MAX_PAYLOAD; lia).
    change (Z.to_nat MAX_PAYLOAD) with 150%nat.
    set (n := Z.min MAX_PAYLOAD (Z.of_nat (length input_file))).
    assert (Hn : 0 < n ≤ 150) by (unfold n, MAX_PAYLOAD; lia).
    assert (Hchunk : length (take 150 input_file) = Z.to_nat n)
      by (rewrite length_take; unfold n, MAX_PAYLOAD; lia).
    set (st1 := Build_loop_state _ _ _ _ _).
    assert (Htake : take (Z.to_nat n) (payload_buffer st1) = take 150 input_file).
    { unfold st1. cbn [payload_buffer]. by rewrite <- Hchunk, take_app_length. }
    pose proof (loop_body_spec encoder dest_addr src_addr n st1) as Hbody.
    cbv zeta in Hbody. rewrite Htake in Hbody. rewrite Hbody; clear Hbody.
    + step.
      edestruct (IH (drop 150 input_file)) as (st' & Hrun & Hout & Hcount);
        [ by apply Forall_drop | rewrite length_drop; lia | rewrite length_drop; lia | ..];
        [ | | | exists st'; split; [exact Hrun|] ];
        cbn [payload_buffer ax25_buffer fx25_buffer output_file packet_count st1] in *.
      * rewrite length_app, Hchunk, length_drop. lia.
      * rewrite length_app, length_wire_ui_frame, Hchunk, length_drop. lia.
      * rewrite length_app, length_wire_fx25_block, length_drop;
          [lia | rewrite length_wire_ui_frame; lia].
      * split; [|lia]. rewrite Hout. cbn [chunks fmap list_fmap concat].
        by rewrite <- app_assoc.
    + lia.
    + unfold st1. cbn [payload_buffer]. rewrite length_app, Hchunk, length_drop. lia.
    + unfold st1. cbn [ax25_buffer]. lia.
    + unfold st1. cbn [fx25_buffer]. lia.
    + by apply Forall_take.
Qed.


(** ** KISS round trip *)

Lemma kiss_unescape_escape (l : list Z) : kiss_unescape (kiss_escape l) = l.
Proof.
  induction l as [|b l IH]; [done|].
  rewrite kiss_escape_cons. unfold kiss_escape_byte.
  repeat case_decide; subst; cbn [app kiss_unescape];
    repeat (case_decide; try done); by rewrite ?IH.
Qed.


Lemma kiss_escape_inj (l1 l2 : list Z) : kiss_escape l1 = kiss_escape l2 → l1 = l2.
Proof.
  intros Heq. by rewrite <- (kiss_unescape_escape l1), Heq, kiss_unescape_escape.
Qed.

(** ** The SSID octet *)

Lemma ssid_octet_low_bits (ssid l : Z) :
  is_byte ssid → 0 ≤ l ≤ 1 →
  uint8_t (Z.lor (Z.lor (Z.shiftl ssid 1) 0x60) l)
  = uint8_t (Z.lor (Z.lor (Z.shiftl (Z.land ssid 0xF) 1) 0x60) l)
  ↔ Z.testbit ssid 6 = false.
Proof.
  intros Hssid Hl.
  assert (Hall : Forall (λ s, Forall (λ l,
            uint8_t (Z.lor (Z.lor (Z.shiftl s 1) 0x60) l)
            = uint8_t (Z.lor (Z.lor (Z.shiftl (Z.land s 0xF) 1) 0x60) l)
            ↔ Z.testbit s 6 = false) (seqZ 0 2)) (seqZ 0 256)).
  { apply (bool_decide_unpack _). by vm_compute. }
  rewrite Forall_seqZ in Hall. specialize (Hall ssid Hssid).
  rewrite Forall_seqZ in Hall. apply Hall. lia.
Qed.

(** * The specification, sentence by sentence *)

(** C1. For every AX.25 frame of at most 223 bytes, [fx25_encode_frame]
    succeeds and returns 263, and the 263 bytes it has written to the output
    array are: the synchronization tag CC 8F 8A E4 85 E2 98 01 in bytes 0-7,
    the frame from byte 8 on, zeros in the rest of the 223-byte data region
    (up to byte 230), and 32 parity bytes.  Nothing behind byte 262 is
    written. *)
Theorem fx25_encode_frame_layout encoder (frame fx25_frame_out : list Z) :
  (length frame ≤ 223)%nat → (263 ≤ length fx25_frame_out)%nat →
  ∃ parity, length parity = 32%nat ∧
    fx25_encode_frame encoder frame (Z.of_nat (length frame)) fx25_frame_out
    = Some (263, [0xCC; 0x8F; 0x8A; 0xE4; 0x85; 0xE2; 0x98; 0x01]
                 ++ frame ++ replicate (223 - length frame) 0
                 ++ parity ++ drop 263 fx25_frame_out).
Proof.
  intros Hframe Hout. exists (wire_rs_parity (rs_handle encoder) frame).
  split; [apply length_wire_rs_parity|].
  rewrite fx25_encode_frame_spec by lia.
  rewrite Nat2Z.id, firstn_all. unfold wire_fx25_block, wire_rs_data.
  by rewrite <- !app_assoc.
Qed.

(** C2. For every byte sequence, [write_kiss_frame] emits the start
    delimiter 0xC0, the command byte 0x00, the body in which each 0xC0 has
    become 0xDB 0xDC, each 0xDB has become 0xDB 0xDD and every other byte is
    unchanged, and the end delimiter 0xC0. *)
Theorem write_kiss_frame_escapes (stream frame : list Z) :
  Forall is_byte frame →
  write_kiss_frame stream frame (Z.of_nat (length frame))
  = Some (stream ++ [0xC0] ++ [0x00] ++ kiss_escape frame ++ [0xC0]).
Proof.
  intros Hbytes.
  rewrite write_kiss_frame_spec by (rewrite ?Nat2Z.id, ?firstn_all; done || lia).
  by rewrite Nat2Z.id, firstn_all.
Qed.

(** C3, as the code has it.  On the nine ASCII bytes of "123456789",
    [calculate_crc] returns 0xD64E.  The value 0x29B1 is the register before
    the final XOR with 0xFFFF, which the function applies. *)
Theorem calculate_crc_check_value :
  calculate_crc (bytes_of_string "123456789") 9 = Some 0xD64E
  ∧ crc_register (bytes_of_string "123456789") 9 = Some 0x29B1
  ∧ 0xD64E = Z.lxor 0x29B1 0xFFFF.
Proof. by vm_compute. Qed.

(** C4, as the code has it.  For every payload of 0 to 150 bytes,
    [ax25_generate_ui_frame] returns the payload length plus 18 (14 address
    bytes, control and PID, 2 bytes of FCS), and the frame it has built in
    the first that many bytes of the array is the UI frame of the payload. *)
Theorem ax25_generate_ui_frame_length frame_buffer dest src (payload : list Z) :
  (length payload ≤ 150)%nat →
  (length payload + 18 ≤ length frame_buffer)%nat →
  ∃ frame rest,
    ax25_generate_ui_frame frame_buffer dest src payload (Z.of_nat (length payload))
    = Some (Z.of_nat (length payload) + 18, frame ++ rest)
    ∧ frame = wire_ui_frame dest src payload
    ∧ Z.of_nat (length frame) = Z.of_nat (length payload) + 18.
Proof.
  intros Hpayload Hbuf.
  exists (wire_ui_frame dest src payload),
    (drop (length payload + 18) frame_buffer).
  rewrite ax25_generate_ui_frame_spec by lia.
  rewrite Nat2Z.id, firstn_all, length_wire_ui_frame.
  repeat split; [|lia]. do 4 f_equal. lia.
Qed.


(** C6. On an input of exactly 301 bytes the loop of [main] ends, having
    read chunks of 150, 150 and 1 bytes; the output file holds the three
    packets of these chunks, in order, and the reported packet count is 3. *)
Theorem main_chunks_301 encoder dest_addr src_addr
    (input_file payload_buf ax25_buf fx25_buf : list Z) :
  length input_file = 301%nat → Forall is_byte input_file →
  length payload_buf = 150%nat →
  length ax25_buf = 512%nat → length fx25_buf = 512%nat →
  let chunk1 := take 150 input_file in
  let chunk2 := take 150 (drop 150 input_file) in
  let chunk3 := drop 300 input_file in
  main encoder dest_addr src_addr input_file payload_buf ax25_buf fx25_buf
  = Some (wire_packet encoder dest_addr src_addr chunk1
          ++ wire_packet encoder dest_addr src_addr chunk2
          ++ wire_packet encoder dest_addr src_addr chunk3, 3)
  ∧ input_file = chunk1 ++ chunk2 ++ chunk3
  ∧ length chunk1 = 150%nat ∧ length chunk2 = 150%nat ∧ length chunk3 = 1%nat.
Proof.
  intros Hin Hbytes Hpb Hax Hfx chunk1 chunk2 chunk3. split.
  - unfold main.
    destruct (main_loop_spec encoder dest_addr src_addr 3 input_file
                {| output_file := []; payload_buffer := payload_buf;
                   ax25_buffer := ax25_buf; fx25_buffer := fx25_buf;
                   packet_count := 0 |})
      as (st' & Hrun & Hout & Hcount);
      cbn [payload_buffer ax25_buffer fx25_buffer]; [done|lia..|].
    rewrite Hrun. step. rewrite Hout, Hcount.
    cbn [output_file packet_count chunks fmap list_fmap concat].
    rewrite app_nil_r, drop_drop. change (150 + 150)%nat with 300%nat.
    assert (Hlast : take 150 (drop 300 input_file) = drop 300 input_file)
      by (apply take_ge; rewrite length_drop; lia).
    by rewrite Hlast.
  - unfold chunk1, chunk2, chunk3. repeat split.
    + change 300%nat with (150 + 150)%nat.
      by rewrite <- (drop_drop input_file 150 150), !take_drop.
    + rewrite length_take. lia.
    + rewrite length_take, length_drop. lia.
    + rewrite length_drop. lia.
Qed.


(** C8. [fx25_encode_frame] returns the error result 0 if and only if the
    frame length it is given exceeds 223. *)
Theorem fx25_encode_frame_error_iff encoder (ax25_frame : list Z) ax25_len
    (fx25_frame_out : list Z) :
  is_error (fx25_encode_frame encoder ax25_frame ax25_len fx25_frame_out)
  ↔ ax25_len > 223.
Proof.
  unfold is_error, fx25_encode_frame, FX25_K. case_decide as Hlen.
  - split; [done|]. by exists fx25_frame_out.
  - split; [|done]. intros [out Hout].
    repeat match type of Hout with
           | context [?m ≫= _] =>
               destruct m; cbn [mbind option_bind] in Hout; [|discriminate]
           end.
    discriminate.
Qed.

(** C9, as the code has it.  [encode_address] raises no error for any SSID
    value.  Its output equals the output for the SSID reduced to its low 4
    bits exactly when bit 6 of the SSID is clear: bits 4, 5 and 7 of the SSID
    never show in the output, bit 6 is shifted into the top bit of the 7th
    byte. *)
Theorem encode_address_ssid_low_bits (a_call : string) (a_ssid : Z) (out : list Z)
    base last_addr :
  is_byte a_ssid → 0 ≤ base → base + 7 ≤ Z.of_nat (length out) →
  is_Some (encode_address a_call a_ssid out base last_addr)
  ∧ (encode_address a_call a_ssid out base last_addr
     = encode_address a_call (Z.land a_ssid 0xF) out base last_addr
     ↔ Z.testbit a_ssid 6 = false).
Proof.
  intros Hssid Hbase Hout.
  rewrite <- (take_drop (Z.to_nat base) out).
  rewrite (encode_address_next {| call := a_call; ssid := a_ssid |})
    by (rewrite ?length_take, ?length_drop; lia).
  rewrite (encode_address_next {| call := a_call; ssid := Z.land a_ssid 0xF |})
    by (rewrite ?length_take, ?length_drop; lia).
  split; [done|].
  rewrite <- (ssid_octet_low_bits a_ssid (if bool_decide (last_addr ≠ 0) then 1 else 0))
    by (done || case_bool_decide; lia).
  unfold wire_address. cbn [call ssid]. split.
  - intros Heq. apply (inj Some) in Heq.
    apply app_inv_tail, app_inv_head, app_inv_head in Heq. by injection Heq.
  - by intros ->.
Qed.

(** C10. [fx25_encode_frame] is atomic on error: called with a frame length
    above 223 it returns 0 and the output array is as it was. *)
Theorem fx25_encode_frame_error_atomic encoder (ax25_frame : list Z) ax25_len
    (fx25_frame_out : list Z) :
  ax25_len > 223 →
  fx25_encode_frame encoder ax25_frame ax25_len fx25_frame_out
  = Some (0, fx25_frame_out).
Proof.
  intros Hlen. unfold fx25_encode_frame, FX25_K. by rewrite decide_True.
Qed.

End Packetizer.

(** * Examples, instances and counterexamples

    The theorems above applied to concrete inputs, and the inputs on which
    four sentences of the specification fail.  Where a Reed-Solomon encoder
    is needed, a stand-in whose [i]-th parity symbol is [i] takes the place
    of libfec. *)

Example encode_address_N0CALL_1 :
  encode_address "N0CALL" 1 (replicate 7 0) 0 0
  = Some [0x9C; 0x60; 0x86; 0x82; 0x98; 0x98; 0x62].
Proof. reflexivity. Qed.

Example encode_address_short_call_last :
  encode_address "CQ" 0 (replicate 7 0) 0 1
  = Some [0x86; 0xA2; 0x40; 0x40; 0x40; 0x40; 0x61].
Proof. reflexivity. Qed.

Example write_kiss_frame_C0_DB :
  write_kiss_frame [] [0x01; 0xC0; 0xDB; 0xDC] 4
  = Some [0xC0; 0x00; 0x01; 0xDB; 0xDC; 0xDB; 0xDD; 0xDC; 0xC0].
Proof. reflexivity. Qed.

Example ax25_generate_ui_frame_empty_payload :
  fst <$> ax25_generate_ui_frame (replicate 512 0)
            {| call := "DEST"; ssid := 0 |} {| call := "SRC"; ssid := 1 |} [] 0
  = Some 18.
Proof. by vm_compute. Qed.

(** C1 on the frame [01 02 03] and a 263-byte output array. *)
Lemma fx25_encode_frame_layout_witness :
  ((length [1; 2; 3] ≤ 223)%nat ∧ (263 ≤ length (replicate 263 0xFF))%nat)
  ∧ ∃ parity, length parity = 32%nat ∧
      fx25_encode_frame unit (λ _ _ i, i) {| rs_handle := () |} [1; 2; 3]
        (Z.of_nat (length [1; 2; 3])) (replicate 263 0xFF)
      = Some (263, [0xCC; 0x8F; 0x8A; 0xE4; 0x85; 0xE2; 0x98; 0x01]
                   ++ [1; 2; 3] ++ replicate (223 - length [1; 2; 3]) 0
                   ++ parity ++ drop 263 (replicate 263 0xFF)).
Proof.
  assert (H1 : (length [1; 2; 3] ≤ 223)%nat) by (simpl; lia).
  assert (H2 : (263 ≤ length (replicate 263 0xFF))%nat) by (vm_compute; lia).
  split; [by split|].
  exact (fx25_encode_frame_layout unit (λ _ _ i, i) {| rs_handle := () |}
           [1; 2; 3] (replicate 263 0xFF) H1 H2).
Defined.

(** C2 on the bytes [C0 01 DB]. *)
Lemma write_kiss_frame_escapes_witness :
  Forall is_byte [0xC0; 0x01; 0xDB]
  ∧ write_kiss_frame [] [0xC0; 0x01; 0xDB] 3
    = Some ([] ++ [0xC0] ++ [0x00] ++ kiss_escape [0xC0; 0x01; 0xDB] ++ [0xC0]).
Proof.
  assert (H : Forall is_byte [0xC0; 0x01; 0xDB]) by (by apply (bool_decide_unpack _)).
  split; [exact H|].
  exact (write_kiss_frame_escapes [] [0xC0; 0x01; 0xDB] H).
Defined.

(** C3 fails: the check value of the specification is not what
    [calculate_crc] returns. *)
Lemma calculate_crc_check_value_not_29B1 :
  calculate_crc (bytes_of_string "123456789") 9 ≠ Some 0x29B1.
Proof. by vm_compute. Qed.

(** C4 fails: a 10-byte payload gives a frame of 28 bytes, not 26. *)
Lemma ax25_generate_ui_frame_length_not_16 :
  fst <$> ax25_generate_ui_frame (replicate 512 0)
            {| call := "DEST"; ssid := 0 |} {| call := "SRC"; ssid := 1 |}
            (replicate 10 0) 10
  ≠ Some (10 + 16).
Proof. by vm_compute. Qed.

(** C4, amended, on the payload [01 02 03]. *)
Lemma ax25_generate_ui_frame_length_witness :
  ((length [1; 2; 3] ≤ 150)%nat ∧ (length [1; 2; 3] + 18 ≤ length (replicate 512 0))%nat)
  ∧ ∃ frame rest,
      ax25_generate_ui_frame (replicate 512 0)
        {| call := "DEST"; ssid := 0 |} {| call := "SRC"; ssid := 1 |}
        [1; 2; 3] (Z.of_nat (length [1; 2; 3]))
      = Some (Z.of_nat (length [1; 2; 3]) + 18, frame ++ rest)
      ∧ frame = wire_ui_frame {| call := "DEST"; ssid := 0 |}
                  {| call := "SRC"; ssid := 1 |} [1; 2; 3]
      ∧ Z.of_nat (length frame) = Z.of_nat (length [1; 2; 3]) + 18.
Proof.
  assert (H1 : (length [1; 2; 3] ≤ 150)%nat) by (simpl; lia).
  assert (H2 : (length [1; 2; 3] + 18 ≤ length (replicate 512 0))%nat)
    by (vm_compute; lia).
  split; [by split|].
  exact (ax25_generate_ui_frame_length (replicate 512 0)
           {| call := "DEST"; ssid := 0 |} {| call := "SRC"; ssid := 1 |}
           [1; 2; 3] H1 H2).
Defined.



(** C6 on 301 bytes of value 0x41 and zeroed arrays. *)
Lemma main_chunks_301_witness :
  (length (replicate 301 0x41) = 301%nat ∧ Forall is_byte (replicate 301 0x41)
   ∧ length (replicate 150 0) = 150%nat ∧ length (replicate 512 0) = 512%nat)
  ∧ main unit (λ _ _ i, i) {| rs_handle := () |}
      {| call := "DEST"; ssid := 0 |} {| call := "SRC"; ssid := 1 |}
      (replicate 301 0x41) (replicate 150 0) (replicate 512 0) (replicate 512 0)
    = Some (wire_packet unit (λ _ _ i, i) {| rs_handle := () |}
              {| call := "DEST"; ssid := 0 |} {| call := "SRC"; ssid := 1 |}
              (take 150 (replicate 301 0x41))
            ++ wire_packet unit (λ _ _ i, i) {| rs_handle := () |}
                 {| call := "DEST"; ssid := 0 |} {| call := "SRC"; ssid := 1 |}
                 (take 150 (drop 150 (replicate 301 0x41)))
            ++ wire_packet unit (λ _ _ i, i) {| rs_handle := () |}
                 {| call := "DEST"; ssid := 0 |} {| call := "SRC"; ssid := 1 |}
                 (drop 300 (replicate 301 0x41)), 3).
Proof.
  assert (H1 : length (replicate 301 0x41) = 301%nat) by (by vm_compute).
  assert (H2 : Forall is_byte (replicate 301 0x41))
    by (apply Forall_replicate; unfold is_byte; lia).
  assert (H3 : length (replicate 150 0) = 150%nat) by (by vm_compute).
  assert (H4 : length (replicate 512 0) = 512%nat) by (by vm_compute).
  split; [by repeat split|].
  exact (proj1 (main_chunks_301 unit (λ _ _ i, i) {| rs_handle := () |}
                  {| call := "DEST"; ssid := 0 |} {| call := "SRC"; ssid := 1 |}
                  (replicate 301 0x41) (replicate 150 0) (replicate 512 0)
                  (replicate 512 0) H1 H2 H3 H4 H4)).
Defined.


(** C9 fails: SSID 64 does not encode like its low 4 bits, which are 0. *)
Lemma encode_address_ssid_64_not_masked :
  encode_address "N0CALL" 64 (replicate 7 0) 0 0
  ≠ encode_address "N0CALL" (Z.land 64 0xF) (replicate 7 0) 0 0.
Proof. by vm_compute. Qed.

(** C9, amended, on SSID 17, which encodes like SSID 1. *)
Lemma encode_address_ssid_low_bits_witness :
  (is_byte 17 ∧ 0 ≤ 0 ∧ 0 + 7 ≤ Z.of_nat (length (replicate 7 0)))
  ∧ is_Some (encode_address "N0CALL" 17 (replicate 7 0) 0 0)
  ∧ (encode_address "N0CALL" 17 (replicate 7 0) 0 0
     = encode_address "N0CALL" (Z.land 17 0xF) (replicate 7 0) 0 0
     ↔ Z.testbit 17 6 = false).
Proof.
  assert (H1 : is_byte 17) by (unfold is_byte; lia).
  assert (H2 : 0 ≤ 0) by lia.
  assert (H3 : 0 + 7 ≤ Z.of_nat (length (replicate 7 0))) by (vm_compute; discriminate).
  split; [by repeat split|].
  exact (encode_address_ssid_low_bits "N0CALL" 17 (replicate 7 0) 0 0 H1 H2 H3).
Defined.

(** C10 on a frame length of 224. *)
Lemma fx25_encode_frame_error_atomic_witness :
  224 > 223
  ∧ fx25_encode_frame unit (λ _ _ i, i) {| rs_handle := () |}
      (replicate 224 0) 224 (replicate 263 0xFF)
    = Some (0, replicate 263 0xFF).
Proof.
  assert (H : 224 > 223) by lia.
  split; [exact H|].
  exact (fx25_encode_frame_error_atomic unit (λ _ _ i, i) {| rs_handle := () |}
           (replicate 224 0) 224 (replicate 263 0xFF) H).
Defined.
